(** * 8W_Dask_Rapids.ipynb: the notebook and its [expensive] kernel

    The notebook drives external libraries (dask_cuda, dask.distributed,
    dask_cudf, cuml, numpy) and defines one function of its own,
    [expensive], which it hands to [apply_rows].

    - [Kernel]: the function [expensive] over its two integer arrays,
      with the accesses it performs recorded.
    - [Tables]: rows and frames, for the sample data.
    - [Notebook]: the seven code cells as a program over an arbitrary
      implementation of the external libraries, and the events of a run.
    - [RefLib]: a reference implementation of the external code, to run
      the notebook on sample data.
    - [Iterations], [NotebookMore]: the iterations of the loop one by
      one, and the names a run reads and binds.
    - [KernelProofs], [NotebookProofs], [KernelExtras], [NotebookExtras]:
      what holds of them. *)

From Stdlib Require Import ZArith Lia.
From stdpp Require Import base option list strings gmap.

(** ** The kernel [expensive] *)
Module Kernel.

(** [apply_rows] binds the parameter [x] to the data of the column named
    in [incols] and [price_index] to the output column it allocates for
    [outcols]: the kernel works on these two arrays. Prices are the
    integers of the [price] column. The function is modelled one row
    after the other on the rows it is handed, for as long as every access
    falls inside its array. *)
Inductive param := arg_x | arg_price_index.

Inductive access :=
| Load (a : param) (i : nat)
| Store (a : param) (i : nat) (v : Z).

Record mem := Mem {
  arr_x : list Z;
  arr_price_index : list Z;
  accesses : list access
}.

Definition array (m : mem) (a : param) : list Z :=
  match a with
  | arg_x => arr_x m
  | arg_price_index => arr_price_index m
  end.

Definition set_array (m : mem) (a : param) (l : list Z) : mem :=
  match a with
  | arg_x => Mem l (arr_price_index m) (accesses m)
  | arg_price_index => Mem (arr_x m) l (accesses m)
  end.

Definition record (m : mem) (e : access) : mem :=
  Mem (arr_x m) (arr_price_index m) (accesses m ++ [e]).

(** An access outside its array ends the modelled run with [OutOfBounds]:
    the Python interpreter raises [IndexError] there, while the kernel
    compiled for the GPU, as [apply_rows] runs it, does not check the
    index. The access is recorded; nothing is said about what follows. *)
Inductive outcome (A : Type) :=
| Done (r : A)
| OutOfBounds
| OutOfFuel.
Arguments Done {A} r.
Arguments OutOfBounds {A}.
Arguments OutOfFuel {A}.

Definition K (A : Type) : Type := mem -> outcome A * mem.

#[export] Instance K_ret : MRet K := fun A r m => (Done r, m).
#[export] Instance K_bind : MBind K := fun A B f c m =>
  match c m with
  | (Done r, m') => f r m'
  | (OutOfBounds, m') => (OutOfBounds, m')
  | (OutOfFuel, m') => (OutOfFuel, m')
  end.

Definition out_of_fuel {A} : K A := fun m => (OutOfFuel, m).

(** [len(a)] *)
Definition len (a : param) : K nat := fun m => (Done (length (array m a)), m).

(** [a[i]] read *)
Definition load (a : param) (i : nat) : K Z := fun m =>
  match array m a !! i with
  | Some v => (Done v, record m (Load a i))
  | None => (OutOfBounds, record m (Load a i))
  end.

(** [a[i] = v] *)
Definition store (a : param) (i : nat) (v : Z) : K unit := fun m =>
  if decide (i < length (array m a))
  then (Done tt, record (set_array m a (<[i := v]> (array m a))) (Store a i v))
  else (OutOfBounds, record m (Store a i v)).

(** One step of the iterator behind [enumerate(a)] at position [i]: the
    next item, or [None] once the position has reached the length. *)
Definition iter_next (a : param) (i : nat) : K (option Z) :=
  n ← len a;
  if decide (i < n) then v ← load a i; mret (Some v) else mret None.

(** [for i, item in enumerate(a): body i item], continuing at position [i] *)
Fixpoint for_enumerate (fuel : nat) (a : param) (i : nat)
    (body : nat -> Z -> K unit) : K unit :=
  match fuel with
  | O => out_of_fuel
  | S fuel' =>
      nxt ← iter_next a i;
      match nxt with
      | None => mret tt
      | Some item => body i item;; for_enumerate fuel' a (S i) body
      end
  end.

(** <<
    def expensive(x, price_index):
        for i, price in enumerate(x):
            if price < 50:
                price_index[i] = 0
            elif price < 100:
                price_index[i] = 1
            else:
                price_index[i] = 2
    >> *)
Definition expensive_body (i : nat) (price : Z) : K unit :=
  if (price <? 50)%Z then store arg_price_index i 0%Z
  else if (price <? 100)%Z then store arg_price_index i 1%Z
  else store arg_price_index i 2%Z.

Definition expensive (x price_index : list Z) : outcome unit * mem :=
  for_enumerate (S (length x)) arg_x 0 expensive_body (Mem x price_index []).

(** *** What a run looks like *)

Definition price_class (price : Z) : Z :=
  if (price <? 50)%Z then 0%Z else if (price <? 100)%Z then 1%Z else 2%Z.

(** The accesses of the iterations over [prices], the first one at
    position [i]. *)
Fixpoint kernel_accesses (i : nat) (prices : list Z) : list access :=
  match prices with
  | [] => []
  | price :: rest =>
      Load arg_x i :: Store arg_price_index i (price_class price)
        :: kernel_accesses (S i) rest
  end.

End Kernel.

(** ** Tabular data

    Rows of named cells, for the sample data the reference library works
    on. *)
Module Tables.

Inductive cell :=
| CNA
| CStr (s : string)
| CInt (z : Z)
| CDec (text : string)                  (* a decimal read from a CSV file *)
| CF32Int (z : Z)                       (* [CInt z] cast to float32 *)
| CF32Dec (text : string).              (* [CDec text] cast to float32 *)

#[export] Instance cell_eq_dec : EqDecision cell.
Proof. solve_decision. Defined.

Definition row := list (string * cell).
Definition frame := list row.

Fixpoint field (r : row) (column : string) : option cell :=
  match r with
  | [] => None
  | (n, v) :: rest => if decide (n = column) then Some v else field rest column
  end.

(** [df[columns]] *)
Definition select (columns : list string) (f : frame) : option frame :=
  mapM (λ r, mapM (λ c, (λ v, (c, v)) <$> field r c) columns) f.

(** [.astype(np.float32)] *)
Definition to_float32 (c : cell) : option cell :=
  match c with
  | CNA => Some CNA
  | CInt z => Some (CF32Int z)
  | CDec t => Some (CF32Dec t)
  | CF32Int z => Some (CF32Int z)
  | CF32Dec t => Some (CF32Dec t)
  | CStr _ => None
  end.

Definition astype_float32 (f : frame) : option frame :=
  mapM (mapM (λ '(n, v), (λ v', (n, v')) <$> to_float32 v)) f.

(** [.dropna()] *)
Definition dropna (f : frame) : frame :=
  filter (λ r, Forall (λ p, p.2 ≠ CNA) r) f.

End Tables.

(** ** The notebook *)
Module Notebook.

Section Notebook.

(** Objects of the external libraries are opaque to the notebook, and so
    are the state they keep ([world]: devices, files, the cluster, task
    graphs) and the exceptions they raise. *)
Context {obj world err : Type}.

(** The Python values the notebook handles. *)
#[local] Unset Elimination Schemes.
Inductive pyval :=
| PObj (o : obj)                        (* an object of an external library *)
| PStr (s : string)
| PList (l : list pyval)
| PDict (d : list (pyval * pyval))
| PBuiltin (name : string)              (* [int] *)
| PFun (name : string)                  (* a function defined in the notebook *)
       (f : list Z -> list Z -> Kernel.outcome unit * Kernel.mem).
#[local] Set Elimination Schemes.

(** What the notebook asks of external code. *)
Inductive libcall :=
| ImportFrom (module name : string)     (* from module import name *)
| Import (module : string)              (* import module *)
| Call (f : obj)                        (* f(args, **kwargs) *)
       (args : list pyval) (kwargs : list (string * pyval))
| CallMethod (recv : obj) (name : string) (* recv.name(args, **kwargs) *)
             (args : list pyval) (kwargs : list (string * pyval))
| GetAttr (recv : obj) (name : string)  (* recv.name *)
| GetItem (recv : obj) (key : pyval).   (* recv[key] *)

Inductive event :=
| Ran (cmd : string) (out : obj)        (* a shell escape and what it printed *)
| Called (c : libcall) (r : err + obj).

Inductive exn :=
| LibError (e : err)
| NameError (name : string)
| TypeError (v : pyval).

Inductive output :=
| Stream (text : obj)
| ExecuteResult (value : obj)
| Traceback (e : exn).                  (* shown by a cell that raised *)

(** [globals] holds the names the statements of the notebook bind. The
    names IPython keeps for its own bookkeeping ([_], [_3], [Out], [In],
    [_exit_code] and the like) are not tracked: no cell reads them. *)
Record state := State {
  globals : gmap string pyval;
  libstate : world;
  events : list event;
  outputs : list output
}.

(** The external code: [lib] answers a call with an object or raises,
    [sh] runs a shell command and gives what it printed. A shell escape
    raises nothing, whatever the command's exit status. What a library
    prints of its own while a call runs is not modelled; the notebook as
    stored shows no such output. *)
Variable lib : libcall -> world -> (err + obj) * world.
Variable sh : string -> world -> obj * world.

Definition Py (A : Type) : Type := state -> (exn + A) * state.

#[export] Instance Py_ret : MRet Py := fun A a st => (inr a, st).
#[export] Instance Py_bind : MBind Py := fun A B f c st =>
  match c st with
  | (inr a, st') => f a st'
  | (inl e, st') => (inl e, st')
  end.

Definition throw {A} (e : exn) : Py A := fun st => (inl e, st).

(** A name not bound in the kernel is looked up among the builtins. Of
    these the cells read [int] only. *)
Definition builtin (n : string) : option pyval :=
  if String.eqb n "int" then Some (PBuiltin "int") else None.

(** A global name read. *)
Definition name (n : string) : Py pyval := fun st =>
  match globals st !! n with
  | Some v => (inr v, st)
  | None =>
      match builtin n with
      | Some v => (inr v, st)
      | None => (inl (NameError n), st)
      end
  end.

(** A global name read where a library object is needed. *)
Definition name_obj (n : string) : Py obj :=
  v ← name n;
  match v with
  | PObj o => mret o
  | _ => throw (TypeError v)
  end.

(** [n = v] *)
Definition assign (n : string) (v : pyval) : Py unit := fun st =>
  (inr tt, State (<[n := v]> (globals st)) (libstate st) (events st) (outputs st)).

Definition call (c : libcall) : Py obj := fun st =>
  let '(r, w) := lib c (libstate st) in
  let st' := State (globals st) w (events st ++ [Called c r]) (outputs st) in
  match r with
  | inr o => (inr o, st')
  | inl e => (inl (LibError e), st')
  end.

(** [!cmd]: what the command prints goes to the cell's output. IPython
    runs it through [get_ipython], taken here to be the kernel's own. *)
Definition shell (cmd : string) : Py unit := fun st =>
  let '(out, w) := sh cmd (libstate st) in
  (inr tt, State (globals st) w (events st ++ [Ran cmd out])
                 (outputs st ++ [Stream out])).

(** The value of a cell's last expression is shown as its result. *)
Definition display (o : obj) : Py unit := fun st =>
  (inr tt, State (globals st) (libstate st) (events st)
                 (outputs st ++ [ExecuteResult o])).

Definition import_from (module n : string) : Py unit :=
  o ← call (ImportFrom module n); assign n (PObj o).

Definition import_as (module n : string) : Py unit :=
  o ← call (Import module); assign n (PObj o).

(** <<
    !nvidia-smi
    >> *)
Definition cell_1 : Py unit :=
  shell "nvidia-smi".

(** <<
    from dask_cuda import LocalCUDACluster
    from dask.distributed import Client

    cluster = LocalCUDACluster() # Identify all available GPUs
    client = Client(cluster)
    >> *)
Definition cell_2 : Py unit :=
  import_from "dask_cuda" "LocalCUDACluster";;
  import_from "dask.distributed" "Client";;
  f ← name_obj "LocalCUDACluster";
  cluster ← call (Call f [] []);
  assign "cluster" (PObj cluster);;
  f ← name_obj "Client";
  cluster ← name "cluster";
  client ← call (Call f [cluster] []);
  assign "client" (PObj client).

(** <<
    import dask_cudf

    df = dask_cudf.read_csv('listings*.csv')
    df.head()
    >> *)
Definition cell_3 : Py unit :=
  import_as "dask_cudf" "dask_cudf";;
  dask_cudf ← name_obj "dask_cudf";
  df ← call (CallMethod dask_cudf "read_csv" [PStr "listings*.csv"] []);
  assign "df" (PObj df);;
  df ← name_obj "df";
  shown ← call (CallMethod df "head" [] []);
  display shown.

(** <<
    df.groupby(['neighbourhood', 'room_type']) \
      .price \
      .mean() \
      .compute()
    >> *)
Definition cell_4 : Py unit :=
  df ← name_obj "df";
  grouped ← call (CallMethod df "groupby"
                    [PList [PStr "neighbourhood"; PStr "room_type"]] []);
  price ← call (GetAttr grouped "price");
  mean ← call (CallMethod price "mean" [] []);
  table ← call (CallMethod mean "compute" [] []);
  display table.

(** <<
    def expensive(x, price_index):
        ...

    # Use cudf's `apply_rows` API for applying function to every row in DataFrame
    df = df.apply_rows(expensive,
                       incols={'price':'x'},
                       outcols={'price_index': int})

    # Confirm that price index created correctly
    df[['price', 'price_index']].head()
    >> *)
Definition cell_5 : Py unit :=
  assign "expensive" (PFun "expensive" Kernel.expensive);;
  df ← name_obj "df";
  expensive ← name "expensive";
  int ← name "int";
  df' ← call (CallMethod df "apply_rows" [expensive]
                [("incols", PDict [(PStr "price", PStr "x")]);
                 ("outcols", PDict [(PStr "price_index", int)])]);
  assign "df" (PObj df');;
  df ← name_obj "df";
  columns ← call (GetItem df (PList [PStr "price"; PStr "price_index"]));
  shown ← call (CallMethod columns "head" [] []);
  display shown.

(** <<
    from cuml.dask.linear_model import LinearRegression
    import numpy as np

    X = df[['reviews_per_month', 'minimum_nights']].astype(np.float32).dropna()
    y = df[['price']].astype(np.float32).dropna()
    fit = LinearRegression().fit(X, y)
    >> *)
Definition cell_6 : Py unit :=
  import_from "cuml.dask.linear_model" "LinearRegression";;
  import_as "numpy" "np";;
  df ← name_obj "df";
  columns ← call (GetItem df (PList [PStr "reviews_per_month";
                                     PStr "minimum_nights"]));
  np ← name_obj "np";
  float32 ← call (GetAttr np "float32");
  cast ← call (CallMethod columns "astype" [PObj float32] []);
  X ← call (CallMethod cast "dropna" [] []);
  assign "X" (PObj X);;
  df ← name_obj "df";
  columns ← call (GetItem df (PList [PStr "price"]));
  np ← name_obj "np";
  float32 ← call (GetAttr np "float32");
  cast ← call (CallMethod columns "astype" [PObj float32] []);
  y ← call (CallMethod cast "dropna" [] []);
  assign "y" (PObj y);;
  f ← name_obj "LinearRegression";
  model ← call (Call f [] []);
  X ← name "X";
  y ← name "y";
  fit ← call (CallMethod model "fit" [X; y] []);
  assign "fit" (PObj fit).

(** <<
    df_nyc = dask_cudf.read_csv('test*.csv')
    X_test = df_nyc[['reviews_per_month', 'minimum_nights']].astype(np.float32) \
                                                            .dropna()
    fit.predict(X_test) \
       .compute() \
       .head()
    >> *)
Definition cell_7 : Py unit :=
  dask_cudf ← name_obj "dask_cudf";
  df_nyc ← call (CallMethod dask_cudf "read_csv" [PStr "test*.csv"] []);
  assign "df_nyc" (PObj df_nyc);;
  df_nyc ← name_obj "df_nyc";
  columns ← call (GetItem df_nyc (PList [PStr "reviews_per_month";
                                         PStr "minimum_nights"]));
  np ← name_obj "np";
  float32 ← call (GetAttr np "float32");
  cast ← call (CallMethod columns "astype" [PObj float32] []);
  X_test ← call (CallMethod cast "dropna" [] []);
  assign "X_test" (PObj X_test);;
  fit ← name_obj "fit";
  X_test ← name "X_test";
  predicted ← call (CallMethod fit "predict" [X_test] []);
  computed ← call (CallMethod predicted "compute" [] []);
  shown ← call (CallMethod computed "head" [] []);
  display shown.

Definition cells : list (Py unit) :=
  [cell_1; cell_2; cell_3; cell_4; cell_5; cell_6; cell_7].

(** A cell that raises shows the traceback of the exception. *)
Definition run_cell (c : Py unit) : Py unit := fun st =>
  match c st with
  | (inr a, st') => (inr a, st')
  | (inl e, st') =>
      (inl e, State (globals st') (libstate st') (events st')
                    (outputs st' ++ [Traceback e]))
  end.

(** The cells run top to bottom in one kernel; the first exception stops
    the run. *)
Fixpoint run_all (cs : list (Py unit)) : Py unit :=
  match cs with
  | [] => mret tt
  | c :: rest => run_cell c;; run_all rest
  end.

Definition fresh (w : world) : state := State ∅ w [] [].

Definition notebook (w : world) : (exn + unit) * state :=
  run_all cells (fresh w).

(** *** The events of a run in which no call raises

    The objects the external code returns along such a run, named after
    the expressions that produce them. *)
Record objects := Objects {
  o_printed : obj;                      (* what nvidia-smi printed *)
  o_LocalCUDACluster : obj;
  o_Client : obj;
  o_cluster : obj;
  o_client : obj;
  o_dask_cudf : obj;
  o_df : obj;                           (* dask_cudf.read_csv('listings*.csv') *)
  o_df_head : obj;
  o_grouped : obj;
  o_grouped_price : obj;
  o_mean : obj;
  o_table : obj;                        (* ... .mean().compute() *)
  o_df_indexed : obj;                   (* df.apply_rows(expensive, ...) *)
  o_index_columns : obj;
  o_index_head : obj;
  o_LinearRegression : obj;
  o_np : obj;
  o_X_columns : obj;
  o_X_float32 : obj;
  o_X_cast : obj;
  o_X : obj;
  o_y_columns : obj;
  o_y_float32 : obj;
  o_y_cast : obj;
  o_y : obj;
  o_model : obj;                        (* LinearRegression() *)
  o_fit : obj;                          (* ... .fit(X, y) *)
  o_df_nyc : obj;                       (* dask_cudf.read_csv('test*.csv') *)
  o_test_columns : obj;
  o_test_float32 : obj;
  o_test_cast : obj;
  o_X_test : obj;
  o_predicted : obj;                    (* fit.predict(X_test) *)
  o_computed : obj;
  o_predicted_head : obj
}.

Definition returned (c : libcall) (o : obj) : event := Called c (inr o).

(** (a) the visible devices are queried *)
Definition query_devices (o : objects) : list event :=
  [Ran "nvidia-smi" (o_printed o)].

(** (b) a local cluster is started and a client connected to it *)
Definition start_cluster (o : objects) : list event :=
  [returned (ImportFrom "dask_cuda" "LocalCUDACluster") (o_LocalCUDACluster o);
   returned (ImportFrom "dask.distributed" "Client") (o_Client o);
   returned (Call (o_LocalCUDACluster o) [] []) (o_cluster o);
   returned (Call (o_Client o) [PObj (o_cluster o)] []) (o_client o)].

(** (c) the listings are loaded into a distributed frame *)
Definition load_csv (o : objects) : list event :=
  [returned (Import "dask_cudf") (o_dask_cudf o);
   returned (CallMethod (o_dask_cudf o) "read_csv" [PStr "listings*.csv"] [])
            (o_df o);
   returned (CallMethod (o_df o) "head" [] []) (o_df_head o)].

(** (d) the group-by query *)
Definition groupby_aggregate (o : objects) : list event :=
  [returned (CallMethod (o_df o) "groupby"
               [PList [PStr "neighbourhood"; PStr "room_type"]] [])
            (o_grouped o);
   returned (GetAttr (o_grouped o) "price") (o_grouped_price o);
   returned (CallMethod (o_grouped_price o) "mean" [] []) (o_mean o);
   returned (CallMethod (o_mean o) "compute" [] []) (o_table o)].

(** (e) [expensive] is applied to the rows *)
Definition apply_rows_call (df : obj) : libcall :=
  CallMethod df "apply_rows" [PFun "expensive" Kernel.expensive]
    [("incols", PDict [(PStr "price", PStr "x")]);
     ("outcols", PDict [(PStr "price_index", PBuiltin "int")])].

Definition transform_rows (o : objects) : list event :=
  [returned (apply_rows_call (o_df o)) (o_df_indexed o);
   returned (GetItem (o_df_indexed o) (PList [PStr "price"; PStr "price_index"]))
            (o_index_columns o);
   returned (CallMethod (o_index_columns o) "head" [] []) (o_index_head o)].

(** (f) a linear regression is fitted *)
Definition fit_model (o : objects) : list event :=
  [returned (ImportFrom "cuml.dask.linear_model" "LinearRegression")
            (o_LinearRegression o);
   returned (Import "numpy") (o_np o);
   returned (GetItem (o_df_indexed o)
               (PList [PStr "reviews_per_month"; PStr "minimum_nights"]))
            (o_X_columns o);
   returned (GetAttr (o_np o) "float32") (o_X_float32 o);
   returned (CallMethod (o_X_columns o) "astype" [PObj (o_X_float32 o)] [])
            (o_X_cast o);
   returned (CallMethod (o_X_cast o) "dropna" [] []) (o_X o);
   returned (GetItem (o_df_indexed o) (PList [PStr "price"])) (o_y_columns o);
   returned (GetAttr (o_np o) "float32") (o_y_float32 o);
   returned (CallMethod (o_y_columns o) "astype" [PObj (o_y_float32 o)] [])
            (o_y_cast o);
   returned (CallMethod (o_y_cast o) "dropna" [] []) (o_y o);
   returned (Call (o_LinearRegression o) [] []) (o_model o);
   returned (CallMethod (o_model o) "fit" [PObj (o_X o); PObj (o_y o)] [])
            (o_fit o)].

(** (g) the fitted model scores a second dataset *)
Definition score (o : objects) : list event :=
  [returned (CallMethod (o_dask_cudf o) "read_csv" [PStr "test*.csv"] [])
            (o_df_nyc o);
   returned (GetItem (o_df_nyc o)
               (PList [PStr "reviews_per_month"; PStr "minimum_nights"]))
            (o_test_columns o);
   returned (GetAttr (o_np o) "float32") (o_test_float32 o);
   returned (CallMethod (o_test_columns o) "astype" [PObj (o_test_float32 o)] [])
            (o_test_cast o);
   returned (CallMethod (o_test_cast o) "dropna" [] []) (o_X_test o);
   returned (CallMethod (o_fit o) "predict" [PObj (o_X_test o)] [])
            (o_predicted o);
   returned (CallMethod (o_predicted o) "compute" [] []) (o_computed o);
   returned (CallMethod (o_computed o) "head" [] []) (o_predicted_head o)].

Definition events_of (o : objects) : list event :=
  query_devices o ++ start_cluster o ++ load_csv o ++ groupby_aggregate o
    ++ transform_rows o ++ fit_model o ++ score o.


(** What the cells of such a run show, in order. *)
Definition outputs_of (o : objects) : list output :=
  [Stream (o_printed o);
   ExecuteResult (o_df_head o);
   ExecuteResult (o_table o);
   ExecuteResult (o_index_head o);
   ExecuteResult (o_predicted_head o)].

(** An event that did not raise. *)
Definition succeeded (ev : event) : Prop :=
  match ev with
  | Called _ (inl _) => False
  | _ => True
  end.

(** [answered w evs w']: the events [evs] are what the external code
    answers, one after the other, from [w], and leave it in [w']. *)
Inductive answered : world -> list event -> world -> Prop :=
| answered_nil w : answered w [] w
| answered_ran w cmd out w' evs w'' :
    sh cmd w = (out, w') → answered w' evs w'' →
    answered w (Ran cmd out :: evs) w''
| answered_called w c r w' evs w'' :
    lib c w = (r, w') → answered w' evs w'' →
    answered w (Called c r :: evs) w''.

(** Whether a value is, or holds, a function defined in the notebook. *)
Fixpoint has_function (v : pyval) : bool :=
  match v with
  | PFun _ _ => true
  | PList l => existsb has_function l
  | PDict d => existsb (λ e, has_function e.1 || has_function e.2) d
  | _ => false
  end.

Definition passes_function (c : libcall) : bool :=
  match c with
  | Call _ args kwargs | CallMethod _ _ args kwargs =>
      existsb has_function args || existsb (λ a, has_function a.2) kwargs
  | GetItem _ key => has_function key
  | _ => false
  end.

(** An event in which code of the notebook is handed to the external code. *)
Definition runs_notebook_code (ev : event) : bool :=
  match ev with
  | Called c _ => passes_function c
  | Ran _ _ => false
  end.

(** A run either goes through all seven cells, or stops at the first
    call that raises. *)
Definition completed (w : world) (r : (exn + unit) * state) : Prop :=
  ∃ o, r.1 = inr tt ∧ events r.2 = events_of o ∧ outputs r.2 = outputs_of o ∧
       answered w (events r.2) (libstate r.2).

Definition aborted (w : world) (r : (exn + unit) * state) : Prop :=
  ∃ e c pre,
    r.1 = inl (LibError e) ∧
    events r.2 = pre ++ [Called c (inl e)] ∧
    Forall succeeded pre ∧
    answered w (events r.2) (libstate r.2) ∧
    length pre < 35 ∧
    length (outputs r.2) ≤ 5.

End Notebook.

End Notebook.

(** ** A reference implementation of the external code

    A small stand-in for the libraries, after their documentation, to run
    the notebook on sample data. What the libraries compute in floating
    point (the group means, a fitted model and its predictions) is kept
    symbolic. *)
Module RefLib.
Import Tables Notebook.

Inductive robj :=
| RText (s : string)
| RModule (module : string)
| RName (module name : string)
| RCluster
| RClient
| RFrame (f : frame)
| RGroupBy (f : frame) (keys : list string)
| RGroupByColumn (f : frame) (keys : list string) (column : string)
| RMeans (f : frame) (keys : list string) (column : string)
| REstimator
| RFitted (X y : frame)
| RPredicted (X y rows : frame).

Record rworld := RWorld {
  devices : string;                     (* what nvidia-smi prints *)
  files : list (string * frame)         (* the frame each glob pattern reads *)
}.

Definition rsh (cmd : string) (w : rworld) : robj * rworld :=
  (RText (if String.eqb cmd "nvidia-smi" then devices w else ""), w).

Fixpoint read_csv (fs : list (string * frame)) (pattern : string) : option frame :=
  match fs with
  | [] => None
  | (p, f) :: rest => if decide (p = pattern) then Some f else read_csv rest pattern
  end.

(** [.apply_rows(kernel, incols={column: 'x'}, outcols={out: int})], on one
    partition: the kernel gets the column and a new array of the same
    length, which becomes the column [out]. *)
Definition int_column (column : string) (f : frame) : option (list Z) :=
  mapM (λ r, match field r column with Some (CInt z) => Some z | _ => None end) f.

Definition apply_rows (kernel : list Z -> list Z -> Kernel.outcome unit * Kernel.mem)
    (column out : string) (f : frame) : string + frame :=
  match int_column column f with
  | None => inl "TypeError"
  | Some xs =>
      match kernel xs (replicate (length xs) 0%Z) with
      | (Kernel.Done _, m) =>
          inr (zip_with (λ r v, r ++ [(out, CInt v)]) f (Kernel.arr_price_index m))
      | _ => inl "RuntimeError"
      end
  end.

Definition frame_result (e : string) (o : option frame) : string + robj :=
  match o with Some f => inr (RFrame f) | None => inl e end.

Definition no_arguments (args : list (@pyval robj))
    (kwargs : list (string * @pyval robj)) : bool :=
  match args, kwargs with [], [] => true | _, _ => false end.

Definition str (v : @pyval robj) : option string :=
  match v with PStr s => Some s | _ => None end.

Definition strings (vs : list (@pyval robj)) : option (list string) :=
  mapM str vs.

Definition builtin_of (v : @pyval robj) : option string :=
  match v with PBuiltin n => Some n | _ => None end.

Definition as_frame (v : @pyval robj) : option frame :=
  match v with PObj (RFrame f) => Some f | _ => None end.

(** The single positional argument, as the kind of value expected. *)
Definition only_obj (args : list (@pyval robj)) : option robj :=
  match args with [PObj o] => Some o | _ => None end.

Definition only_str (args : list (@pyval robj)) : option string :=
  match args with [PStr s] => Some s | _ => None end.

Definition only_strings (args : list (@pyval robj)) : option (list string) :=
  match args with [PList l] => strings l | _ => None end.

Definition only_function (args : list (@pyval robj))
    : option (list Z -> list Z -> Kernel.outcome unit * Kernel.mem) :=
  match args with [PFun _ f] => Some f | _ => None end.

Fixpoint keyword (k : string) (kwargs : list (string * @pyval robj))
    : option (@pyval robj) :=
  match kwargs with
  | [] => None
  | (n, v) :: rest => if decide (n = k) then Some v else keyword k rest
  end.

(** The keyword argument [k], a dictionary with one entry. *)
Definition dict_entry (k : string) (kwargs : list (string * @pyval robj))
    : option (@pyval robj * @pyval robj) :=
  match keyword k kwargs with
  | Some (PDict [e]) => Some e
  | _ => None
  end.

Definition call_name (module n : string) (args : list (@pyval robj))
    (kwargs : list (string * @pyval robj)) : string + robj :=
  if String.eqb module "dask_cuda" && String.eqb n "LocalCUDACluster"
     && no_arguments args kwargs
  then inr RCluster
  else if String.eqb module "cuml.dask.linear_model"
          && String.eqb n "LinearRegression" && no_arguments args kwargs
  then inr REstimator
  else if String.eqb module "dask.distributed" && String.eqb n "Client"
  then match only_obj args, kwargs with
       | Some RCluster, [] => inr RClient
       | _, _ => inl "TypeError"
       end
  else inl "TypeError".

(** The kernel, the input column bound to [x] and the name of the output
    column of an [apply_rows] call. *)
Definition apply_rows_arguments (args : list (@pyval robj))
    (kwargs : list (string * @pyval robj))
    : option ((list Z -> list Z -> Kernel.outcome unit * Kernel.mem)
              * string * string) :=
  match only_function args, dict_entry "incols" kwargs,
        dict_entry "outcols" kwargs with
  | Some kernel, Some incol, Some outcol =>
      match str incol.1, str incol.2, str outcol.1, builtin_of outcol.2 with
      | Some column, Some parameter, Some out, Some dtype =>
          if String.eqb parameter "x" && String.eqb dtype "int"
          then Some (kernel, column, out) else None
      | _, _, _, _ => None
      end
  | _, _, _ => None
  end.

Definition frame_method (f : frame) (method : string) (args : list (@pyval robj))
    (kwargs : list (string * @pyval robj)) : string + robj :=
  if String.eqb method "head" then
    if no_arguments args kwargs then inr (RFrame (take 5 f)) else inl "TypeError"
  else if String.eqb method "dropna" then
    if no_arguments args kwargs then inr (RFrame (dropna f)) else inl "TypeError"
  else if String.eqb method "groupby" then
    match only_strings args, kwargs with
    | Some keys, [] => inr (RGroupBy f keys)
    | _, _ => inl "TypeError"
    end
  else if String.eqb method "astype" then
    match only_obj args, kwargs with
    | Some (RName module n), [] =>
        if String.eqb module "numpy" && String.eqb n "float32"
        then frame_result "ValueError" (astype_float32 f)
        else inl "TypeError"
    | _, _ => inl "TypeError"
    end
  else if String.eqb method "apply_rows" then
    match apply_rows_arguments args kwargs with
    | Some (kernel, column, out) =>
        match apply_rows kernel column out f with
        | inr f' => inr (RFrame f')
        | inl e => inl e
        end
    | None => inl "TypeError"
    end
  else inl "AttributeError".

Definition call_method (w : rworld) (recv : robj) (method : string)
    (args : list (@pyval robj)) (kwargs : list (string * @pyval robj))
    : string + robj :=
  match recv with
  | RModule module =>
      if String.eqb module "dask_cudf" && String.eqb method "read_csv" then
        match only_str args, kwargs with
        | Some pattern, [] =>
            frame_result "FileNotFoundError" (read_csv (files w) pattern)
        | _, _ => inl "TypeError"
        end
      else inl "AttributeError"
  | RFrame f => frame_method f method args kwargs
  | RGroupByColumn f keys column =>
      if String.eqb method "mean" && no_arguments args kwargs
      then inr (RMeans f keys column)
      else inl "AttributeError"
  | RMeans f keys column =>
      if String.eqb method "compute" && no_arguments args kwargs
      then inr (RMeans f keys column)
      else inl "AttributeError"
  | REstimator =>
      if String.eqb method "fit" then
        match as_frame <$> args, kwargs with
        | [Some X; Some y], [] => inr (RFitted X y)
        | _, _ => inl "TypeError"
        end
      else inl "AttributeError"
  | RFitted X y =>
      if String.eqb method "predict" then
        match only_obj args, kwargs with
        | Some (RFrame rows), [] => inr (RPredicted X y rows)
        | _, _ => inl "TypeError"
        end
      else inl "AttributeError"
  | RPredicted X y rows =>
      if String.eqb method "compute" && no_arguments args kwargs
      then inr (RPredicted X y rows)
      else if String.eqb method "head" && no_arguments args kwargs
      then inr (RPredicted X y (take 5 rows))
      else inl "AttributeError"
  | _ => inl "AttributeError"
  end.

Definition get_attr (recv : robj) (n : string) : string + robj :=
  match recv with
  | RModule module =>
      if String.eqb module "numpy" && String.eqb n "float32"
      then inr (RName "numpy" "float32")
      else inl "AttributeError"
  | RGroupBy f keys => inr (RGroupByColumn f keys n)
  | _ => inl "AttributeError"
  end.

Definition get_item (recv : robj) (key : @pyval robj) : string + robj :=
  match recv, only_strings [key] with
  | RFrame f, Some columns => frame_result "KeyError" (select columns f)
  | _, _ => inl "TypeError"
  end.

Definition rlib (c : @libcall robj) (w : rworld) : (string + robj) * rworld :=
  (match c with
   | ImportFrom module n => inr (RName module n)
   | Import module => inr (RModule module)
   | Call (RName module n) args kwargs => call_name module n args kwargs
   | Call _ _ _ => inl "TypeError"
   | CallMethod recv method args kwargs => call_method w recv method args kwargs
   | GetAttr recv n => get_attr recv n
   | GetItem recv key => get_item recv key
   end, w).

(** The first rows of the listings shown in the notebook and one more, and
    three rows to score. *)
Definition listing (neighbourhood room_type : string) (price minimum_nights : Z)
    (reviews_per_month : cell) : row :=
  [("neighbourhood", CStr neighbourhood); ("room_type", CStr room_type);
   ("price", CInt price); ("minimum_nights", CInt minimum_nights);
   ("reviews_per_month", reviews_per_month)].

Definition sample : rworld :=
  RWorld "2 x Tesla T4"
    [("listings*.csv",
      [listing "East Boston" "Entire home/apt" 125 32 (CDec "0.27");
       listing "Roxbury" "Entire home/apt" 169 29 (CDec "0.81");
       listing "Back Bay" "Entire home/apt" 96 29 (CDec "0.08");
       listing "North End" "Entire home/apt" 96 29 (CDec "0.03");
       listing "Back Bay" "Entire home/apt" 75 91 CNA;
       listing "Back Bay" "Private room" 40 2 (CDec "1.5")]);
     ("test*.csv",
      [listing "Harlem" "Private room" 60 3 (CDec "0.38");
       listing "Midtown" "Entire home/apt" 225 1 CNA;
       listing "Chelsea" "Entire home/apt" 150 30 (CDec "0.10")])].


(** A kernel in which [int] has been rebound, with a frame of one row. *)
Definition shadowed : @state robj rworld string :=
  State (<["int" := PStr "float"]>
           (<["df" := PObj (RFrame [[("price", CInt 60)]])]> ∅))
        sample [] [].

End RefLib.

(** ** The iterations of the loop, one by one

    The source notes that the loop of [expensive] is run in parallel on
    the GPU. An iteration is the body of the loop for one row: the item
    is read, then the body runs on it. *)
Module Iterations.
Import Kernel.

Definition iteration (i : nat) : K unit :=
  price ← load arg_x i; expensive_body i price.

(** The iterations for the rows [order], one after the other. *)
Fixpoint run_iterations (order : list nat) : K unit :=
  match order with
  | [] => mret tt
  | i :: rest => iteration i;; run_iterations rest
  end.

(** The accesses of the iteration for row [i] of [x]. *)
Definition iteration_accesses (x : list Z) (i : nat) : list access :=
  match x !! i with
  | Some price => [Load arg_x i; Store arg_price_index i (price_class price)]
  | None => [Load arg_x i]
  end.

End Iterations.

(** ** The names and the outputs of a run *)
Module NotebookMore.
Import Notebook.

Section More.
Context {obj world err : Type}.
Variable lib : @libcall obj -> world -> (err + obj) * world.
Variable sh : string -> world -> obj * world.

(** The names the notebook binds and what each holds after a run in
    which no call raised: [df] has been rebound to the frame with the
    price index. *)
Definition names_of (o : @objects obj) : list (string * @pyval obj) :=
  [("X_test", PObj (o_X_test o));
   ("df_nyc", PObj (o_df_nyc o));
   ("fit", PObj (o_fit o));
   ("y", PObj (o_y o));
   ("X", PObj (o_X o));
   ("np", PObj (o_np o));
   ("LinearRegression", PObj (o_LinearRegression o));
   ("df", PObj (o_df_indexed o));
   ("expensive", PFun "expensive" Kernel.expensive);
   ("dask_cudf", PObj (o_dask_cudf o));
   ("client", PObj (o_client o));
   ("cluster", PObj (o_cluster o));
   ("Client", PObj (o_Client o));
   ("LocalCUDACluster", PObj (o_LocalCUDACluster o))].

(** The first [k] cells, run in a fresh kernel. *)
Definition first_cells (k : nat) (w : world)
    : (@exn obj err + unit) * @state obj world err :=
  run_all (take k (cells lib sh)) (fresh w).



Definition named (r : (@exn obj err + unit) * @state obj world err) : Prop :=
  r.1 = inr tt →
  ∃ o, events r.2 = events_of o ∧ globals r.2 = list_to_map (names_of o).


End More.

End NotebookMore.

Module KernelProofs.
Import Kernel.

(** The prices of the first listings and the index the notebook shows for
    them. *)
Example expensive_first_listings :
  expensive [125; 169; 96; 96; 75]%Z (replicate 5 0%Z) =
    (Done tt,
     Mem [125; 169; 96; 96; 75]%Z [2; 2; 1; 1; 1]%Z
         [Load arg_x 0; Store arg_price_index 0 2%Z;
          Load arg_x 1; Store arg_price_index 1 2%Z;
          Load arg_x 2; Store arg_price_index 2 1%Z;
          Load arg_x 3; Store arg_price_index 3 1%Z;
          Load arg_x 4; Store arg_price_index 4 1%Z]).
Proof. reflexivity. Qed.

Example expensive_thresholds :
  (expensive [49; 50; 99; 100; 0; -5]%Z (replicate 6 7%Z)).2.(arr_price_index)
    = [0; 1; 1; 2; 0; 0]%Z.
Proof. reflexivity. Qed.

(** An output array that is too short: the run reaches a store past its
    end. *)
Example expensive_output_too_short :
  expensive [125; 10; 60]%Z [7; 7]%Z =
    (OutOfBounds,
     Mem [125; 10; 60]%Z [2; 0]%Z
         [Load arg_x 0; Store arg_price_index 0 2%Z;
          Load arg_x 1; Store arg_price_index 1 0%Z;
          Load arg_x 2; Store arg_price_index 2 1%Z]).
Proof. reflexivity. Qed.

Lemma price_class_range price :
  price_class price = 0%Z ∨ price_class price = 1%Z ∨ price_class price = 2%Z.
Proof.
  unfold price_class.
  destruct (price <? 50)%Z; [auto|]. destruct (price <? 100)%Z; auto.
Qed.

Lemma price_class_mono p q : (p ≤ q)%Z → (price_class p ≤ price_class q)%Z.
Proof.
  unfold price_class. intros Hpq.
  destruct (Z.ltb_spec p 50), (Z.ltb_spec q 50),
    (Z.ltb_spec p 100), (Z.ltb_spec q 100); lia.
Qed.

(** The body stores the class of the price at the position it is given. *)
Lemma expensive_body_store i price :
  expensive_body i price = store arg_price_index i (price_class price).
Proof.
  unfold expensive_body, price_class.
  destruct (price <? 50)%Z; [done|]. by destruct (price <? 100)%Z.
Qed.

(** The loop from position [i], when the output array is long enough. *)
Lemma for_enumerate_done fuel : ∀ i m,
  length (arr_x m) - i < fuel →
  i ≤ length (arr_x m) →
  length (arr_x m) ≤ length (arr_price_index m) →
  for_enumerate fuel arg_x i expensive_body m =
    (Done tt,
     Mem (arr_x m)
         (take i (arr_price_index m) ++ (price_class <$> drop i (arr_x m))
            ++ drop (length (arr_x m)) (arr_price_index m))
         (accesses m ++ kernel_accesses i (drop i (arr_x m)))).
Proof.
  induction fuel as [|fuel IH]; intros i m Hfuel Hi Hlen; [lia|].
  destruct m as [xs ps acc]; simpl in *.
  unfold mbind, K_bind, iter_next, len, mbind, K_bind; simpl.
  destruct (decide (i < length xs)) as [Hlt|Hge].
  - destruct (lookup_lt_is_Some_2 xs i Hlt) as [price Hprice].
    unfold load; simpl. rewrite Hprice; simpl.
    rewrite expensive_body_store. unfold store; simpl.
    destruct (decide (i < length ps)) as [_|]; [|lia].
    unfold record, set_array; simpl.
    rewrite IH; simpl; rewrite ?length_insert; try lia.
    rewrite (drop_S xs price i Hprice); simpl.
    rewrite take_insert_lt by lia.
    rewrite drop_insert_lt by lia.
    assert (Hp : is_Some (ps !! i)) by (apply lookup_lt_is_Some_2; lia).
    destruct Hp as [old Hold].
    rewrite (take_S_r ps i old Hold).
    rewrite insert_app_r_alt by (rewrite length_take; lia).
    rewrite length_take, Nat.min_l, Nat.sub_diag by lia. simpl.
    rewrite <- !app_assoc. simpl. repeat f_equal.
  - assert (i = length xs) as -> by lia.
    rewrite drop_all; simpl. unfold mret, K_ret.
    by rewrite take_drop, app_nil_r.
Qed.

(** The loop from position [i], when the output array is too short: it
    reaches the store at position [length price_index]. *)
Lemma for_enumerate_out_of_bounds fuel : ∀ i m,
  length (arr_x m) - i < fuel →
  i ≤ length (arr_price_index m) →
  length (arr_price_index m) < length (arr_x m) →
  for_enumerate fuel arg_x i expensive_body m =
    (OutOfBounds,
     Mem (arr_x m)
         (take i (arr_price_index m)
            ++ (price_class <$> take (length (arr_price_index m) - i)
                                  (drop i (arr_x m))))
         (accesses m
            ++ kernel_accesses i (take (S (length (arr_price_index m) - i))
                                    (drop i (arr_x m))))).
Proof.
  induction fuel as [|fuel IH]; intros i m Hfuel Hi Hlen; [lia|].
  destruct m as [xs ps acc]; simpl in *.
  unfold mbind, K_bind, iter_next, len, mbind, K_bind; simpl.
  destruct (decide (i < length xs)) as [Hlt|]; [|lia].
  destruct (lookup_lt_is_Some_2 xs i Hlt) as [price Hprice].
  unfold load; simpl. rewrite Hprice; simpl.
  rewrite expensive_body_store. unfold store; simpl.
  rewrite (drop_S xs price i Hprice).
  destruct (decide (i < length ps)) as [Hip|Hip].
  - unfold record, set_array; simpl.
    rewrite IH; simpl; rewrite ?length_insert; try lia.
    rewrite take_insert_lt by lia.
    destruct (lookup_lt_is_Some_2 ps i Hip) as [old Hold].
    rewrite (take_S_r ps i old Hold).
    rewrite insert_app_r_alt by (rewrite length_take; lia).
    rewrite length_take, Nat.min_l, Nat.sub_diag by lia. simpl.
    replace (length ps - i) with (S (length ps - S i)) by lia. simpl.
    rewrite <- !app_assoc. simpl. repeat f_equal.
  - assert (i = length ps) as -> by lia.
    rewrite Nat.sub_diag, take_ge by lia. simpl.
    unfold record; simpl. by rewrite <- !app_assoc, app_nil_r.
Qed.

Lemma expensive_done x price_index :
  length x ≤ length price_index →
  expensive x price_index =
    (Done tt,
     Mem x ((price_class <$> x) ++ drop (length x) price_index)
         (kernel_accesses 0 x)).
Proof.
  intros Hlen. unfold expensive.
  rewrite for_enumerate_done; simpl; try lia. by rewrite drop_0.
Qed.

Lemma expensive_out_of_bounds x price_index :
  length price_index < length x →
  expensive x price_index =
    (OutOfBounds,
     Mem x (price_class <$> take (length price_index) x)
         (kernel_accesses 0 (take (S (length price_index)) x))).
Proof.
  intros Hlen. unfold expensive.
  rewrite for_enumerate_out_of_bounds; simpl; try lia.
  by rewrite drop_0, Nat.sub_0_r.
Qed.

(** The fuel given to the loop is always enough. *)
Lemma expensive_total x price_index :
  (expensive x price_index).1 = Done tt ∨
  (expensive x price_index).1 = OutOfBounds.
Proof.
  destruct (decide (length x ≤ length price_index)).
  - left. by rewrite expensive_done.
  - right. rewrite expensive_out_of_bounds by lia. done.
Qed.

Lemma elem_of_kernel_accesses_load prices : ∀ i a j,
  Load a j ∈ kernel_accesses i prices ↔
  a = arg_x ∧ i ≤ j < i + length prices.
Proof.
  induction prices as [|price rest IH]; intros i a j; simpl.
  - rewrite elem_of_nil. lia.
  - rewrite !elem_of_cons, IH. split.
    + intros [Heq|[Heq|[-> ?]]]; [|done|split; [done|lia]].
      injection Heq as -> ->. split; [done|lia].
    + intros [-> ?]. destruct (decide (j = i)) as [->|]; [by left|].
      right; right. split; [done|lia].
Qed.

Lemma elem_of_kernel_accesses_store prices : ∀ i a j v,
  Store a j v ∈ kernel_accesses i prices ↔
  a = arg_price_index ∧ i ≤ j ∧
  ∃ price, prices !! (j - i) = Some price ∧ v = price_class price.
Proof.
  induction prices as [|price rest IH]; intros i a j v; simpl.
  - rewrite elem_of_nil. split; [done|]. by intros (_ & _ & ? & ? & _).
  - rewrite !elem_of_cons, IH. split.
    + intros [Heq|[Heq|(-> & ? & q & Hq & ->)]]; [done| |].
      * injection Heq as -> -> ->. split; [done|]. split; [lia|].
        exists price. by rewrite Nat.sub_diag.
      * split; [done|]. split; [lia|]. exists q. split; [|done].
        by replace (j - i) with (S (j - S i)) by lia.
    + intros (-> & Hij & q & Hq & ->).
      destruct (decide (j = i)) as [->|Hne].
      * rewrite Nat.sub_diag in Hq. injection Hq as ->. right. by left.
      * right; right. split; [done|]. split; [lia|]. exists q. split; [|done].
        by replace (j - i) with (S (j - S i)) in Hq by lia.
Qed.

(** At position [i] the kernel stores the class of [x[i]] and nothing else. *)
Lemma kernel_accesses_store_at x i price :
  x !! i = Some price →
  ∀ w, Store arg_price_index i w ∈ kernel_accesses 0 x ↔ w = price_class price.
Proof.
  intros Hi w. rewrite elem_of_kernel_accesses_store, Nat.sub_0_r. split.
  - intros (_ & _ & q & Hq & ->). congruence.
  - intros ->. split; [done|]. split; [lia|]. by exists price.
Qed.

Lemma price_index_lookup x price_index i price :
  x !! i = Some price →
  ((price_class <$> x) ++ drop (length x) price_index) !! i
    = Some (price_class price).
Proof.
  intros Hi. rewrite lookup_app_l.
  - by rewrite list_lookup_fmap, Hi.
  - rewrite length_fmap. by eapply lookup_lt_Some.
Qed.

(** C2. When the output array is at least as long as [x], [expensive]
    returns normally and, for every position [i] of [x], [price_index[i]]
    is then 0 if [x[i] < 50], 1 if [50 <= x[i] < 100] and 2 if
    [x[i] >= 100]; every value it stores is 0, 1 or 2. *)
Theorem expensive_price_index (x price_index : list Z) :
  length x ≤ length price_index →
  ∃ m, expensive x price_index = (Done tt, m) ∧
    (∀ i price, x !! i = Some price →
       ∃ v, arr_price_index m !! i = Some v ∧
         ((price < 50)%Z → v = 0%Z) ∧
         ((50 ≤ price < 100)%Z → v = 1%Z) ∧
         ((100 ≤ price)%Z → v = 2%Z)) ∧
    (∀ a i v, Store a i v ∈ accesses m → v = 0%Z ∨ v = 1%Z ∨ v = 2%Z).
Proof.
  intros Hlen. eexists. split; [by apply expensive_done|]. simpl. split.
  - intros i price Hi. exists (price_class price).
    split; [by apply price_index_lookup|].
    unfold price_class.
    destruct (Z.ltb_spec price 50), (Z.ltb_spec price 100); lia.
  - intros a i v Hin.
    apply elem_of_kernel_accesses_store in Hin as (_ & _ & price & _ & ->).
    apply price_class_range.
Qed.

Lemma expensive_price_index_witness :
  length [125; 169; 96; 96; 75; 10]%Z ≤ length [7; 7; 7; 7; 7; 7; 7]%Z ∧
  ∃ m, expensive [125; 169; 96; 96; 75; 10]%Z [7; 7; 7; 7; 7; 7; 7]%Z
         = (Done tt, m) ∧
    (∀ i price, [125; 169; 96; 96; 75; 10]%Z !! i = Some price →
       ∃ v, arr_price_index m !! i = Some v ∧
         ((price < 50)%Z → v = 0%Z) ∧
         ((50 ≤ price < 100)%Z → v = 1%Z) ∧
         ((100 ≤ price)%Z → v = 2%Z)) ∧
    (∀ a i v, Store a i v ∈ accesses m → v = 0%Z ∨ v = 1%Z ∨ v = 2%Z).
Proof.
  split; [simpl; lia|]. apply expensive_price_index. simpl; lia.
Defined.

(** C4. The value stored at position [i] depends only on [x[i]]: two runs
    on arrays that agree at position [i] store the same single value
    there, whatever the other rows hold. *)
Theorem expensive_per_row (x x' price_index price_index' : list Z)
    (i : nat) (price : Z) :
  length x ≤ length price_index →
  length x' ≤ length price_index' →
  x !! i = Some price →
  x' !! i = Some price →
  ∃ m m' v,
    expensive x price_index = (Done tt, m) ∧
    expensive x' price_index' = (Done tt, m') ∧
    (∀ w, Store arg_price_index i w ∈ accesses m ↔ w = v) ∧
    (∀ w, Store arg_price_index i w ∈ accesses m' ↔ w = v) ∧
    arr_price_index m !! i = Some v ∧
    arr_price_index m' !! i = Some v.
Proof.
  intros Hlen Hlen' Hi Hi'. do 2 eexists. exists (price_class price).
  split; [by apply expensive_done|]. split; [by apply expensive_done|].
  simpl. split; [by apply kernel_accesses_store_at|].
  split; [by apply kernel_accesses_store_at|].
  split; by apply price_index_lookup.
Qed.

Lemma expensive_per_row_witness :
  ∃ m m' v,
    expensive [125; 75; 10]%Z [7; 7; 7]%Z = (Done tt, m) ∧
    expensive [30; 75]%Z [8; 8; 8; 8]%Z = (Done tt, m') ∧
    (∀ w, Store arg_price_index 1 w ∈ accesses m ↔ w = v) ∧
    (∀ w, Store arg_price_index 1 w ∈ accesses m' ↔ w = v) ∧
    arr_price_index m !! 1 = Some v ∧
    arr_price_index m' !! 1 = Some v.
Proof.
  apply (expensive_per_row [125; 75; 10]%Z [30; 75]%Z
           [7; 7; 7]%Z [8; 8; 8; 8]%Z 1 75%Z);
    [simpl; lia | simpl; lia | reflexivity | reflexivity].
Defined.

(** C8. [expensive] is monotone in the price: if [x[i] <= x[j]], the
    value stored at position [i] is at most the one stored at [j]. *)
Theorem expensive_monotone (x price_index : list Z) (i j : nat) (pi pj : Z) :
  length x ≤ length price_index →
  x !! i = Some pi →
  x !! j = Some pj →
  (pi ≤ pj)%Z →
  ∃ m vi vj,
    expensive x price_index = (Done tt, m) ∧
    (∀ w, Store arg_price_index i w ∈ accesses m ↔ w = vi) ∧
    (∀ w, Store arg_price_index j w ∈ accesses m ↔ w = vj) ∧
    arr_price_index m !! i = Some vi ∧
    arr_price_index m !! j = Some vj ∧
    (vi ≤ vj)%Z.
Proof.
  intros Hlen Hi Hj Hle. eexists. exists (price_class pi), (price_class pj).
  split; [by apply expensive_done|]. simpl.
  split; [by apply kernel_accesses_store_at|].
  split; [by apply kernel_accesses_store_at|].
  split; [by apply price_index_lookup|].
  split; [by apply price_index_lookup|].
  by apply price_class_mono.
Qed.

Lemma expensive_monotone_witness :
  ∃ m vi vj,
    expensive [125; 75; 10]%Z [7; 7; 7]%Z = (Done tt, m) ∧
    (∀ w, Store arg_price_index 2 w ∈ accesses m ↔ w = vi) ∧
    (∀ w, Store arg_price_index 0 w ∈ accesses m ↔ w = vj) ∧
    arr_price_index m !! 2 = Some vi ∧
    arr_price_index m !! 0 = Some vj ∧
    (vi ≤ vj)%Z.
Proof.
  apply (expensive_monotone [125; 75; 10]%Z [7; 7; 7]%Z 2 0 10%Z 125%Z);
    [simpl; lia | reflexivity | reflexivity | lia].
Defined.

(** C9. When [len(price_index) >= len(x)], [expensive] returns normally,
    loads only from [x] and stores only to [price_index], both at
    positions below [len(x)]; it leaves [x] and the entries of
    [price_index] from [len(x)] on as they were; and the run does not
    depend on what [price_index] held: any other output array of
    sufficient length gives the same accesses and the same first
    [len(x)] entries. *)
Theorem expensive_in_bounds (x price_index : list Z) :
  length x ≤ length price_index →
  ∃ m, expensive x price_index = (Done tt, m) ∧
    (∀ a i, Load a i ∈ accesses m → a = arg_x ∧ i < length x) ∧
    (∀ a i v, Store a i v ∈ accesses m →
       a = arg_price_index ∧ i < length x ∧ i < length price_index) ∧
    arr_x m = x ∧
    length (arr_price_index m) = length price_index ∧
    (∀ j, length x ≤ j → arr_price_index m !! j = price_index !! j) ∧
    (∀ other, length x ≤ length other →
       ∃ m', expensive x other = (Done tt, m') ∧
         accesses m' = accesses m ∧
         take (length x) (arr_price_index m')
           = take (length x) (arr_price_index m)).
Proof.
  intros Hlen. eexists. split; [by apply expensive_done|]. simpl.
  split.
  { intros a i Hin. apply elem_of_kernel_accesses_load in Hin. simpl in Hin.
    destruct Hin as [-> ?]. split; [done|lia]. }
  split.
  { intros a i v Hin.
    apply elem_of_kernel_accesses_store in Hin as (-> & _ & price & Hp & _).
    apply lookup_lt_Some in Hp. split; [done|lia]. }
  split; [done|].
  split.
  { rewrite length_app, length_fmap, length_drop. lia. }
  split.
  { intros j Hj. rewrite lookup_app_r by (rewrite length_fmap; lia).
    rewrite length_fmap, lookup_drop. f_equal. lia. }
  intros other Hother. eexists. split; [by apply expensive_done|]. simpl.
  split; [done|].
  by rewrite !take_app_length' by (by rewrite length_fmap).
Qed.

Lemma expensive_in_bounds_witness :
  ∃ m, expensive [125; 75; 10]%Z [7; 8; 9; 10]%Z = (Done tt, m) ∧
    (∀ a i, Load a i ∈ accesses m → a = arg_x ∧ i < 3) ∧
    (∀ a i v, Store a i v ∈ accesses m →
       a = arg_price_index ∧ i < 3 ∧ i < 4) ∧
    arr_x m = [125; 75; 10]%Z ∧
    length (arr_price_index m) = 4 ∧
    (∀ j, 3 ≤ j → arr_price_index m !! j = [7; 8; 9; 10]%Z !! j) ∧
    (∀ other, 3 ≤ length other →
       ∃ m', expensive [125; 75; 10]%Z other = (Done tt, m') ∧
         accesses m' = accesses m ∧
         take 3 (arr_price_index m') = take 3 (arr_price_index m)).
Proof.
  apply (expensive_in_bounds [125; 75; 10]%Z [7; 8; 9; 10]%Z). simpl; lia.
Defined.

End KernelProofs.

Module NotebookProofs.
Import Notebook.

Section Run.
Context {obj world err : Type}.
Variable lib : @libcall obj -> world -> (err + obj) * world.
Variable sh : string -> world -> obj * world.

Ltac run_unfold :=
  cbv beta iota zeta delta
    [notebook run_all run_cell cells cell_1 cell_2 cell_3 cell_4 cell_5 cell_6
     cell_7 fresh import_from import_as name_obj shell call name builtin assign
     display throw mbind mret Py_bind Py_ret globals libstate events outputs
     app String.eqb Ascii.eqb Bool.eqb].

Ltac run_step :=
  run_unfold;
  match goal with
  | |- context [sh ?c ?w] => destruct (sh c w) as [? ?] eqn:?
  | |- context [lib ?c ?w] => destruct (lib c w) as [[?|?] ?] eqn:?
  | |- context [(<[?k := ?v]> ?m) !! ?k] => rewrite (lookup_insert_eq m k v)
  | |- context [(<[?k := ?v]> ?m) !! ?k'] =>
      rewrite (lookup_insert_ne m k k' v) by discriminate
  | |- context [∅ !! ?k] => rewrite (lookup_empty k)
  end.

Ltac answer :=
  repeat first [ apply answered_nil
               | eapply answered_ran; [eassumption|]
               | eapply answered_called; [eassumption|] ].

Ltac finish_aborted :=
  right;
  lazymatch goal with
  | |- aborted _ _ _ (inl (LibError ?e), State _ _ ?evs _) =>
      exists e;
      lazymatch eval cbv in (last evs) with
      | Some (Called ?c _) => exists c
      end;
      exists (removelast evs)
  end;
  split; [reflexivity|];
  split; [reflexivity|];
  split; [repeat constructor|];
  split; [simpl; answer|];
  simpl; lia.

Lemma notebook_cases w :
  completed lib sh w (notebook lib sh w) ∨ aborted lib sh w (notebook lib sh w).
Proof.
  repeat (run_step; try finish_aborted).
  run_unfold. left.
  eexists (Objects _ _ _ _ _ _ _ _ _ _ _ _ _ _ _ _ _ _ _ _ _ _ _ _ _ _ _ _ _ _
             _ _ _ _ _).
  split; [reflexivity|].
  split; [reflexivity|].
  split; [reflexivity|].
  simpl. answer.
Qed.

Lemma answered_app w evs1 evs2 w'' :
  answered lib sh w (evs1 ++ evs2) w'' ↔
  ∃ w', answered lib sh w evs1 w' ∧ answered lib sh w' evs2 w''.
Proof.
  revert w. induction evs1 as [|ev evs1 IH]; intros w; simpl.
  - split.
    + intros H. exists w. split; [constructor|done].
    + intros (w' & H1 & H2). by inversion H1; subst.
  - split.
    + intros H. inversion H as [|? ? ? w1 ? ? Hs Hr|? ? ? w1 ? ? Hl Hr]; subst;
        apply IH in Hr as (w' & H1 & H2); exists w';
        (split; [econstructor; eassumption|done]).
    + intros (w' & H1 & H2).
      inversion H1 as [|? ? ? w1 ? ? Hs Hr|? ? ? w1 ? ? Hl Hr]; subst;
        econstructor; try eassumption; apply IH; eauto.
Qed.

(** A run that ends normally is a completed one. *)
Lemma notebook_completed w :
  (notebook lib sh w).1 = inr tt → completed lib sh w (notebook lib sh w).
Proof.
  intros Hok. destruct (notebook_cases w) as [?|(e & c & pre & Hr & _)]; [done|].
  rewrite Hr in Hok. discriminate.
Qed.

(** C5. In a run that ends normally the notebook performs, in this order
    and nothing else: the device query, the start of the cluster, the
    load of the listings, the group-by query, the application of
    [expensive] to the rows, the fit of the regression, and the scoring
    of the second dataset. *)
Theorem notebook_operations_in_order w :
  (notebook lib sh w).1 = inr tt →
  ∃ o, events (notebook lib sh w).2 =
         query_devices o ++ start_cluster o ++ load_csv o
           ++ groupby_aggregate o ++ transform_rows o ++ fit_model o
           ++ score o.
Proof.
  intros Hok. destruct (notebook_completed w Hok) as (o & _ & Hev & _).
  by exists o.
Qed.

(** C6, as amended. A run that ends normally shows five outputs, in this
    order: what nvidia-smi printed, the first rows of the listings, the
    table of grouped price means, the first rows of the price and
    price_index columns, and the first predicted prices. *)
Theorem notebook_outputs w :
  (notebook lib sh w).1 = inr tt →
  ∃ o, events (notebook lib sh w).2 = events_of o ∧
       outputs (notebook lib sh w).2 =
         [Stream (o_printed o);
          ExecuteResult (o_df_head o);
          ExecuteResult (o_table o);
          ExecuteResult (o_index_head o);
          ExecuteResult (o_predicted_head o)].
Proof.
  intros Hok. destruct (notebook_completed w Hok) as (o & _ & Hev & Hout & _).
  by exists o.
Qed.

(** C7. Nothing is caught or tried again: if a call raises, the run ends
    with that very exception, the raising call is the last event, and the
    steps before it all succeeded; a run that ends normally went through
    all 35 steps (the shell command and 34 calls) and none raised. The
    events are, in either case, what the external code answered one after
    the other. *)
Theorem errors_abort_the_run w :
  match (notebook lib sh w).1 with
  | inr _ =>
      Forall succeeded (events (notebook lib sh w).2) ∧
      length (events (notebook lib sh w).2) = 35 ∧
      answered lib sh w (events (notebook lib sh w).2)
               (libstate (notebook lib sh w).2)
  | inl ex =>
      ∃ e c pre w',
        ex = LibError e ∧
        events (notebook lib sh w).2 = pre ++ [Called c (inl e)] ∧
        Forall succeeded pre ∧
        length pre < 35 ∧
        answered lib sh w pre w' ∧
        lib c w' = (inl e, libstate (notebook lib sh w).2)
  end.
Proof.
  destruct (notebook_cases w)
    as [(o & Hr & Hev & _ & Hans)
       |(e & c & pre & Hr & Hev & Hpre & Hans & Hlen & _)].
  - rewrite Hr. split; [rewrite Hev; repeat constructor|].
    split; [by rewrite Hev|done].
  - rewrite Hr. rewrite Hev in Hans.
    apply answered_app in Hans as (w' & Hpre' & Hlast).
    exists e, c, pre, w'. repeat (split; [done|]).
    inversion Hlast as [| |? ? ? w1 ? ? Hl Hnil]; subst.
    by inversion Hnil; subst.
Qed.


(** C1, as amended. In a run that ends normally exactly one step hands
    code written in the notebook to the external code: the [apply_rows]
    call, which is given the notebook's function [expensive]. Every other
    step passes library objects and literals only. *)
Theorem only_apply_rows_runs_notebook_code w :
  (notebook lib sh w).1 = inr tt →
  ∃ o, events (notebook lib sh w).2 = events_of o ∧
       filter (λ ev, runs_notebook_code ev = true) (events (notebook lib sh w).2)
         = [returned (CallMethod (o_df o) "apply_rows"
                        [PFun "expensive" Kernel.expensive]
                        [("incols", PDict [(PStr "price", PStr "x")]);
                         ("outcols",
                          PDict [(PStr "price_index", PBuiltin "int")])])
                     (o_df_indexed o)].
Proof.
  intros Hok. destruct (notebook_completed w Hok) as (o & _ & Hev & _).
  exists o. split; [done|]. by rewrite Hev.
Qed.

End Run.

(** *** Runs on the reference library *)
Import Tables RefLib.

Lemma sample_run_ok : (notebook rlib rsh sample).1 = inr tt.
Proof. vm_compute. reflexivity. Qed.

(** On the sample the reference library shows what the notebook recorded
    for its first listings: the price index column 2, 2, 1, 1, 1. *)
Example sample_price_index :
  outputs (notebook rlib rsh sample).2 !! 3 =
    Some (ExecuteResult (RFrame
      [[("price", CInt 125); ("price_index", CInt 2)];
       [("price", CInt 169); ("price_index", CInt 2)];
       [("price", CInt 96); ("price_index", CInt 1)];
       [("price", CInt 96); ("price_index", CInt 1)];
       [("price", CInt 75); ("price_index", CInt 1)]])).
Proof. vm_compute. reflexivity. Qed.

Lemma notebook_operations_in_order_witness :
  ∃ o, events (notebook rlib rsh sample).2 =
         query_devices o ++ start_cluster o ++ load_csv o
           ++ groupby_aggregate o ++ transform_rows o ++ fit_model o
           ++ score o.
Proof.
  apply (notebook_operations_in_order rlib rsh sample).
  vm_compute. reflexivity.
Defined.

Lemma notebook_outputs_witness :
  ∃ o, events (notebook rlib rsh sample).2 = events_of o ∧
       outputs (notebook rlib rsh sample).2 =
         [Stream (o_printed o);
          ExecuteResult (o_df_head o);
          ExecuteResult (o_table o);
          ExecuteResult (o_index_head o);
          ExecuteResult (o_predicted_head o)].
Proof.
  apply (notebook_outputs rlib rsh sample). vm_compute. reflexivity.
Defined.

Lemma only_apply_rows_runs_notebook_code_witness :
  ∃ o, events (notebook rlib rsh sample).2 = events_of o ∧
       filter (λ ev, runs_notebook_code ev = true)
              (events (notebook rlib rsh sample).2)
         = [returned (CallMethod (o_df o) "apply_rows"
                        [PFun "expensive" Kernel.expensive]
                        [("incols", PDict [(PStr "price", PStr "x")]);
                         ("outcols",
                          PDict [(PStr "price_index", PBuiltin "int")])])
                     (o_df_indexed o)].
Proof.
  apply (only_apply_rows_runs_notebook_code rlib rsh sample).
  vm_compute. reflexivity.
Defined.


(** C1, as stated, fails: the run on the sample hands the notebook's own
    function [expensive] to the external code, and the price index shown
    is what that function computes, branching on each price. *)
Lemma library_calls_only_counterexample :
  (notebook rlib rsh sample).1 = inr tt ∧
  ¬ Forall (λ ev, runs_notebook_code ev = false)
           (events (notebook rlib rsh sample).2) ∧
  ∃ m, Kernel.expensive [125; 169; 96; 96; 75; 40]%Z (replicate 6 0%Z)
         = (Kernel.Done tt, m) ∧
       Kernel.arr_price_index m = [2; 2; 1; 1; 1; 0]%Z ∧
       outputs (notebook rlib rsh sample).2 !! 3 =
         Some (ExecuteResult (RFrame
           (zip_with (λ price index,
                        [("price", CInt price); ("price_index", CInt index)])
              [125; 169; 96; 96; 75]%Z
              (take 5 (Kernel.arr_price_index m))))).
Proof.
  split; [exact sample_run_ok|]. split.
  - intros HF.
    destruct (notebook_completed rlib rsh sample sample_run_ok)
      as (o & _ & Hev & _).
    rewrite Hev in HF.
    cbv [events_of query_devices start_cluster load_csv groupby_aggregate
         transform_rows app] in HF.
    rewrite !Forall_cons in HF.
    destruct HF as (_ & _ & _ & _ & _ & _ & _ & _ & _ & _ & _ & _ & HF & _).
    discriminate HF.
  - eexists. split; [reflexivity|]. split; [reflexivity|].
    vm_compute. reflexivity.
Qed.

(** C6, as stated, fails: the run on the sample shows five outputs, the
    first being what nvidia-smi printed and the second the first rows of
    the listings. *)
Lemma three_outputs_counterexample :
  (notebook rlib rsh sample).1 = inr tt ∧
  length (outputs (notebook rlib rsh sample).2) = 5 ∧
  outputs (notebook rlib rsh sample).2 !! 0
    = Some (Stream (RText "2 x Tesla T4")) ∧
  (∃ f, outputs (notebook rlib rsh sample).2 !! 1
          = Some (ExecuteResult (RFrame f)) ∧
        read_csv (files sample) "listings*.csv" = Some (f ++ drop 5 f
          ++ [listing "Back Bay" "Private room" 40 2 (CDec "1.5")])) ∧
  ¬ ∃ a b c, outputs (notebook rlib rsh sample).2 = [a; b; c].
Proof.
  split; [exact sample_run_ok|].
  split; [by vm_compute|].
  split; [by vm_compute|].
  split; [eexists; split; vm_compute; reflexivity|].
  intros (a & b & c & H). apply (f_equal length) in H.
  vm_compute in H. discriminate H.
Qed.

End NotebookProofs.

(** ** More on the kernel *)
Module KernelExtras.
Import Kernel Iterations KernelProofs.

Lemma kernel_accesses_snoc l : ∀ i q,
  kernel_accesses i (l ++ [q]) =
    kernel_accesses i l
      ++ [Load arg_x (i + length l);
          Store arg_price_index (i + length l) (price_class q)].
Proof.
  induction l as [|z l IH]; intros i q; simpl.
  - by rewrite Nat.add_0_r.
  - rewrite IH. by replace (S i + length l) with (i + S (length l)) by lia.
Qed.

(** X1. [expensive] checks no length itself. It returns with every store
    inside [price_index] exactly when [price_index] is at least as long
    as [x]: the condition of C9 cannot be dropped. With a shorter output
    array the run reaches a store to [price_index] at position
    [len(price_index)], the first one outside it. *)
Theorem expensive_inside_iff_long_enough (x price_index : list Z) :
  ((expensive x price_index).1 = Done tt ↔ length x ≤ length price_index) ∧
  ((∀ a i v, Store a i v ∈ accesses (expensive x price_index).2 →
      i < length price_index) ↔ length x ≤ length price_index) ∧
  (length price_index < length x →
   (expensive x price_index).1 = OutOfBounds ∧
   ∃ price, x !! length price_index = Some price ∧
     last (accesses (expensive x price_index).2) =
       Some (Store arg_price_index (length price_index) (price_class price))).
Proof.
  destruct (decide (length x ≤ length price_index)) as [Hle|Hgt].
  - rewrite expensive_done by done. cbn [fst snd accesses].
    split; [done|]. split; [|lia]. split; [done|].
    intros _ a i v Hin.
    apply elem_of_kernel_accesses_store in Hin as (_ & _ & price & Hp & _).
    apply lookup_lt_Some in Hp. lia.
  - assert (Hlt : length price_index < length x) by lia.
    destruct (lookup_lt_is_Some_2 x (length price_index) Hlt) as [price Hprice].
    rewrite expensive_out_of_bounds by done. cbn [fst snd accesses].
    split; [split; [done|lia]|].
    rewrite (take_S_r _ _ _ Hprice), kernel_accesses_snoc.
    rewrite length_take, Nat.min_l by lia. cbn [Nat.add].
    split.
    + split; [|lia]. intros Hin. exfalso.
      apply (Nat.lt_irrefl (length price_index)).
      apply (Hin arg_price_index _ (price_class price)).
      apply elem_of_app. right.
      apply list_elem_of_further, list_elem_of_here.
    + intros _. split; [done|]. exists price. split; [done|].
      by rewrite last_app.
Qed.

Lemma kernel_accesses_length l : ∀ i, length (kernel_accesses i l) = 2 * length l.
Proof. induction l as [|z l IH]; intros i; simpl; [done|]. rewrite IH. lia. Qed.

Lemma kernel_accesses_lookup l : ∀ i k,
  kernel_accesses i l !! (2 * k) = (λ _, Load arg_x (i + k)) <$> l !! k ∧
  kernel_accesses i l !! (2 * k + 1) =
    (λ price, Store arg_price_index (i + k) (price_class price)) <$> l !! k.
Proof.
  induction l as [|z l IH]; intros i k; [done|].
  destruct k as [|k].
  - simpl. by rewrite Nat.add_0_r.
  - replace (2 * S k) with (S (S (2 * k))) by lia.
    replace (S (S (2 * k)) + 1) with (S (S (2 * k + 1))) by lia.
    cbn [kernel_accesses]. rewrite !lookup_cons_ne_0 by lia. cbn [Nat.pred].
    destruct (IH (S i) k) as [-> ->].
    by replace (S i + k) with (i + S k) by lia.
Qed.

(** X3. With an output array of the length of [x], as [apply_rows]
    allocates it, the whole of [price_index] is the classification mapped
    over [x]: nothing of its initial content is left, and [x] is as it
    was. *)
Theorem expensive_is_map (x price_index : list Z) :
  length price_index = length x →
  ∃ m, expensive x price_index = (Done tt, m) ∧
    arr_x m = x ∧
    arr_price_index m =
      (λ price, if (price <? 50)%Z then 0 else if (price <? 100)%Z then 1 else 2)%Z
        <$> x.
Proof.
  intros Hlen. eexists. split; [apply expensive_done; lia|]. simpl.
  split; [done|]. rewrite drop_ge by lia. by rewrite app_nil_r.
Qed.

Lemma expensive_is_map_witness :
  ∃ m, expensive [125; 10; 60]%Z [7; 8; 9]%Z = (Done tt, m) ∧
    arr_x m = [125; 10; 60]%Z ∧
    arr_price_index m =
      (λ price, if (price <? 50)%Z then 0 else if (price <? 100)%Z then 1 else 2)%Z
        <$> [125; 10; 60]%Z.
Proof. apply (expensive_is_map [125; 10; 60]%Z [7; 8; 9]%Z). reflexivity. Defined.

(** X4. Each row is read once and written once, in row order: the run
    makes [2 * len(x)] accesses, the load of [x[i]] at place [2 * i],
    followed by the store to [price_index[i]] of the value found there
    afterwards. *)
Theorem expensive_access_pattern (x price_index : list Z) :
  length x ≤ length price_index →
  ∃ m, expensive x price_index = (Done tt, m) ∧
    length (accesses m) = 2 * length x ∧
    ∀ i price, x !! i = Some price →
      accesses m !! (2 * i) = Some (Load arg_x i) ∧
      ∃ v, accesses m !! (2 * i + 1) = Some (Store arg_price_index i v) ∧
           arr_price_index m !! i = Some v.
Proof.
  intros Hlen. eexists. split; [by apply expensive_done|].
  cbn [accesses arr_price_index arr_x].
  split; [apply kernel_accesses_length|].
  intros i price Hi. split.
  - destruct (kernel_accesses_lookup x 0 i) as [-> _]. by rewrite Hi.
  - exists (price_class price).
    destruct (kernel_accesses_lookup x 0 i) as [_ ->]. rewrite Hi.
    split; [done|]. by apply price_index_lookup.
Qed.

Lemma expensive_access_pattern_witness :
  ∃ m, expensive [125; 10; 60]%Z [7; 8; 9; 10]%Z = (Done tt, m) ∧
    length (accesses m) = 2 * 3 ∧
    ∀ i price, [125; 10; 60]%Z !! i = Some price →
      accesses m !! (2 * i) = Some (Load arg_x i) ∧
      ∃ v, accesses m !! (2 * i + 1) = Some (Store arg_price_index i v) ∧
           arr_price_index m !! i = Some v.
Proof.
  apply (expensive_access_pattern [125; 10; 60]%Z [7; 8; 9; 10]%Z). simpl; lia.
Defined.

(** X5. The kernel can be run on the rows in chunks: on [x1 ++ x2] with
    an output array split at [len(x1)], the resulting [price_index] is
    the result on the first chunk followed by the result on the second. *)
Theorem expensive_chunks (x1 x2 p1 p2 : list Z) :
  length p1 = length x1 →
  length x2 ≤ length p2 →
  ∃ m m1 m2,
    expensive (x1 ++ x2) (p1 ++ p2) = (Done tt, m) ∧
    expensive x1 p1 = (Done tt, m1) ∧
    expensive x2 p2 = (Done tt, m2) ∧
    arr_price_index m = arr_price_index m1 ++ arr_price_index m2.
Proof.
  intros H1 H2. do 3 eexists.
  split; [apply expensive_done; rewrite !length_app; lia|].
  split; [apply expensive_done; lia|].
  split; [by apply expensive_done|]. simpl.
  rewrite fmap_app, length_app, (drop_ge p1) by lia.
  rewrite app_nil_r, <- app_assoc. f_equal. f_equal.
  rewrite drop_app_ge by lia. f_equal. lia.
Qed.

Lemma expensive_chunks_witness :
  ∃ m m1 m2,
    expensive ([125; 10] ++ [60; 200])%Z ([7; 7] ++ [8; 8; 8])%Z = (Done tt, m) ∧
    expensive [125; 10]%Z [7; 7]%Z = (Done tt, m1) ∧
    expensive [60; 200]%Z [8; 8; 8]%Z = (Done tt, m2) ∧
    arr_price_index m = arr_price_index m1 ++ arr_price_index m2.
Proof.
  apply (expensive_chunks [125; 10]%Z [60; 200]%Z [7; 7]%Z [8; 8; 8]%Z);
    [reflexivity | simpl; lia].
Defined.

Lemma iteration_done i m price :
  arr_x m !! i = Some price →
  i < length (arr_price_index m) →
  iteration i m =
    (Done tt,
     Mem (arr_x m) (<[i := price_class price]> (arr_price_index m))
         (accesses m ++ [Load arg_x i;
                         Store arg_price_index i (price_class price)])).
Proof.
  intros Hi Hlt. destruct m as [xs ps acc]; simpl in *.
  unfold iteration, mbind, K_bind, load; simpl. rewrite Hi; simpl.
  rewrite expensive_body_store. unfold store; simpl.
  destruct (decide (i < length ps)); [|lia].
  unfold record, set_array; simpl. by rewrite <- app_assoc.
Qed.

Lemma iteration_out_of_bounds i m price :
  arr_x m !! i = Some price →
  length (arr_price_index m) ≤ i →
  iteration i m =
    (OutOfBounds,
     Mem (arr_x m) (arr_price_index m)
         (accesses m ++ [Load arg_x i;
                         Store arg_price_index i (price_class price)])).
Proof.
  intros Hi Hge. destruct m as [xs ps acc]; simpl in *.
  unfold iteration, mbind, K_bind, load; simpl. rewrite Hi; simpl.
  rewrite expensive_body_store. unfold store; simpl.
  destruct (decide (i < length ps)); [lia|].
  unfold record; simpl. by rewrite <- app_assoc.
Qed.

(** The loop of [expensive] is its iterations in row order. *)
Lemma for_enumerate_as_iterations fuel : ∀ i m,
  length (arr_x m) - i < fuel →
  i ≤ length (arr_x m) →
  for_enumerate fuel arg_x i expensive_body m =
    run_iterations (seq i (length (arr_x m) - i)) m.
Proof.
  induction fuel as [|fuel IH]; intros i m Hfuel Hi; [lia|].
  destruct (decide (i < length (arr_x m))) as [Hlt|Hge].
  - destruct (lookup_lt_is_Some_2 _ i Hlt) as [price Hprice].
    replace (length (arr_x m) - i) with (S (length (arr_x m) - S i)) by lia.
    cbn [seq run_iterations for_enumerate].
    unfold mbind at 1 3, K_bind.
    assert (Hnext : iter_next arg_x i m = (Done (Some price), record m (Load arg_x i))).
    { unfold iter_next, mbind, K_bind, len, load. cbn [array].
      destruct (decide (i < length (arr_x m))); [|lia]. by rewrite Hprice. }
    rewrite Hnext.
    unfold mbind at 1, K_bind.
    destruct (decide (i < length (arr_price_index m))) as [Hp|Hp].
    + rewrite (iteration_done i m price) by (done || lia).
      rewrite expensive_body_store. unfold store. cbn [array record arr_price_index arr_x].
      destruct (decide (i < length (arr_price_index m))); [|lia].
      unfold record, set_array. cbn [arr_x arr_price_index accesses].
      rewrite <- app_assoc. cbn [app].
      match goal with
      | |- for_enumerate _ _ _ _ ?m' = _ =>
          assert (H1 : length (arr_x m') - S i < fuel) by (cbn [arr_x]; lia);
          assert (H2 : S i ≤ length (arr_x m')) by (cbn [arr_x]; lia);
          exact (IH (S i) m' H1 H2)
      end.
    + rewrite (iteration_out_of_bounds i m price) by (done || lia).
      rewrite expensive_body_store. unfold store. cbn [array record arr_price_index arr_x].
      destruct (decide (i < length (arr_price_index m))); [lia|].
      unfold record. cbn [arr_x arr_price_index accesses].
      by rewrite <- app_assoc.
  - replace (length (arr_x m) - i) with 0 by lia.
    cbn [seq run_iterations for_enumerate].
    unfold mbind, K_bind, iter_next, mbind, K_bind, len. cbn [array].
    destruct (decide (i < length (arr_x m))); [lia|]. done.
Qed.

Lemma run_iterations_done order : ∀ m,
  Forall (λ i, i < length (arr_x m)) order →
  length (arr_x m) ≤ length (arr_price_index m) →
  ∃ m', run_iterations order m = (Done tt, m') ∧
    arr_x m' = arr_x m ∧
    length (arr_price_index m') = length (arr_price_index m) ∧
    accesses m' = accesses m ++ (order ≫= iteration_accesses (arr_x m)) ∧
    ∀ j, arr_price_index m' !! j =
           if decide (j ∈ order) then price_class <$> arr_x m !! j
           else arr_price_index m !! j.
Proof.
  induction order as [|i order IH]; intros m Hall Hlen.
  - exists m. split; [done|]. split; [done|]. split; [done|].
    split; [by rewrite app_nil_r|].
    intros j. destruct (decide (j ∈ [])) as [Hin|]; [|done].
    by apply elem_of_nil in Hin.
  - apply Forall_cons in Hall as [Hi Hall].
    destruct (lookup_lt_is_Some_2 _ i Hi) as [price Hprice].
    cbn [run_iterations]. unfold mbind, K_bind.
    rewrite (iteration_done i m price) by (done || lia).
    destruct (IH (Mem (arr_x m) (<[i:=price_class price]> (arr_price_index m))
                     (accesses m ++ [Load arg_x i;
                        Store arg_price_index i (price_class price)])))
      as (m' & Hrun & Hx & Hl & Hacc & Hlook).
    { done. }
    { cbn [arr_x arr_price_index]. by rewrite length_insert. }
    cbn [arr_x arr_price_index accesses] in *. rewrite length_insert in Hl.
    exists m'. split; [done|]. split; [done|]. split; [done|].
    split.
    { rewrite Hacc, bind_cons, <- app_assoc. unfold iteration_accesses at 2.
      by rewrite Hprice. }
    intros j. rewrite Hlook.
    destruct (decide (j ∈ order)) as [Hin|Hnin].
    + rewrite decide_True; [done|]. by apply list_elem_of_further.
    + destruct (decide (j = i)) as [->|Hne].
      * rewrite decide_True by apply list_elem_of_here.
        rewrite list_lookup_insert_eq by lia. by rewrite Hprice.
      * rewrite decide_False.
        -- by rewrite list_lookup_insert_ne.
        -- intros Hin. apply elem_of_cons in Hin as [?|?]; done.
Qed.

Lemma kernel_accesses_as_iterations (x : list Z) : ∀ n i,
  i + n = length x →
  kernel_accesses i (drop i x) = seq i n ≫= iteration_accesses x.
Proof.
  induction n as [|n IH]; intros i Hn.
  - by rewrite drop_ge by lia.
  - destruct (lookup_lt_is_Some_2 x i) as [price Hprice]; [lia|].
    rewrite (drop_S x price i Hprice). cbn [seq kernel_accesses].
    rewrite bind_cons, IH by lia. unfold iteration_accesses at 2.
    by rewrite Hprice.
Qed.

(** X6. The iterations of the loop do not depend on one another: run in
    any order that takes every row once, they leave the same [x] and the
    same [price_index] as the loop of [expensive], which is the
    iterations in row order, and make the same accesses up to their
    order. *)
Theorem iterations_in_any_order (x price_index : list Z) (order : list nat) :
  order ≡ₚ seq 0 (length x) →
  length x ≤ length price_index →
  ∃ m m',
    expensive x price_index = (Done tt, m) ∧
    run_iterations (seq 0 (length x)) (Mem x price_index []) = (Done tt, m) ∧
    run_iterations order (Mem x price_index []) = (Done tt, m') ∧
    arr_x m' = arr_x m ∧
    arr_price_index m' = arr_price_index m ∧
    accesses m' ≡ₚ accesses m.
Proof.
  intros Hperm Hlen.
  assert (Hseq : expensive x price_index
                 = run_iterations (seq 0 (length x)) (Mem x price_index [])).
  { unfold expensive. rewrite for_enumerate_as_iterations; cbn [arr_x]; try lia.
    by rewrite Nat.sub_0_r. }
  destruct (run_iterations_done order (Mem x price_index []))
    as (m' & Hrun & Hx & Hl & Hacc & Hlook).
  { cbn [arr_x]. apply Forall_forall. intros i Hi.
    rewrite Hperm in Hi. apply elem_of_seq in Hi. lia. }
  { done. }
  cbn [arr_x arr_price_index accesses] in *.
  eexists _, m'. rewrite <- Hseq.
  split; [by apply expensive_done|]. split; [by apply expensive_done|].
  split; [done|]. cbn [arr_x arr_price_index accesses]. split; [done|].
  split; [|rewrite Hacc, Hperm; cbn [app];
           by rewrite <- (kernel_accesses_as_iterations x (length x) 0),
                      drop_0 by lia].
  apply list_eq. intros j. rewrite Hlook.
  destruct (decide (j ∈ order)) as [Hin|Hnin].
  - rewrite Hperm in Hin. apply elem_of_seq in Hin.
    rewrite lookup_app_l by (rewrite length_fmap; lia).
    by rewrite list_lookup_fmap.
  - assert (length x ≤ j).
    { destruct (decide (length x ≤ j)); [done|]. exfalso. apply Hnin.
      rewrite Hperm. apply elem_of_seq. lia. }
    rewrite lookup_app_r by (rewrite length_fmap; lia).
    rewrite length_fmap, lookup_drop. f_equal. lia.
Qed.

Lemma iterations_in_any_order_witness :
  ∃ m m',
    expensive [125; 10; 60]%Z [7; 7; 7; 7]%Z = (Done tt, m) ∧
    run_iterations (seq 0 3) (Mem [125; 10; 60]%Z [7; 7; 7; 7]%Z []) = (Done tt, m) ∧
    run_iterations [2; 0; 1] (Mem [125; 10; 60]%Z [7; 7; 7; 7]%Z []) = (Done tt, m') ∧
    arr_x m' = arr_x m ∧
    arr_price_index m' = arr_price_index m ∧
    accesses m' ≡ₚ accesses m.
Proof.
  apply (iterations_in_any_order [125; 10; 60]%Z [7; 7; 7; 7]%Z [2; 0; 1]).
  - simpl. apply Permutation_sym.
    apply (Permutation_trans (perm_skip 0 (perm_swap 2 1 []))).
    apply (Permutation_trans (perm_swap 2 0 [1])). reflexivity.
  - simpl; lia.
Defined.

End KernelExtras.

(** ** More on the notebook *)
Module NotebookExtras.
Import Notebook NotebookMore.

Section More.
Context {obj world err : Type}.
Variable lib : @libcall obj -> world -> (err + obj) * world.
Variable sh : string -> world -> obj * world.

Ltac run_unfold :=
  cbv beta iota zeta delta
    [first_cells take notebook run_all run_cell cells cell_1 cell_2 cell_3
     cell_4 cell_5 cell_6 cell_7 fresh import_from import_as name_obj shell
     call name builtin assign display throw mbind mret Py_bind Py_ret globals
     libstate events outputs app String.eqb Ascii.eqb Bool.eqb].

Ltac step :=
  match goal with
  | |- context [sh ?c ?w] => destruct (sh c w) as [? ?] eqn:?
  | |- context [lib ?c ?w] => destruct (lib c w) as [[?|?] ?] eqn:?
  | |- context [(<[?k := ?v]> ?m) !! ?k] => rewrite (lookup_insert_eq m k v)
  | |- context [(<[?k := ?v]> ?m) !! ?k'] =>
      rewrite (lookup_insert_ne m k k' v) by discriminate
  | |- context [∅ !! ?k] => rewrite (lookup_empty k)
  end.







Ltac run_step :=
  run_unfold; step.

Lemma notebook_named w : named (notebook lib sh w).
Proof.
  repeat (run_step; try (intros H; discriminate H)).
  run_unfold. intros _.
  eexists (Objects _ _ _ _ _ _ _ _ _ _ _ _ _ _ _ _ _ _ _ _ _ _ _ _ _ _ _ _ _ _
             _ _ _ _ _).
  split; [reflexivity|].
  cbv [list_to_map names_of fold_right fst snd o_X_test o_df_nyc o_fit o_y o_X
       o_np o_LinearRegression o_df_indexed o_dask_cudf o_client o_cluster
       o_Client o_LocalCUDACluster].
  rewrite (insert_insert_ne _ "expensive" "df") by discriminate.
  rewrite insert_insert_eq. reflexivity.
Qed.

(** X8. After a run in which no call raised, each of the fourteen names
    the notebook binds holds the value of the last assignment to it; in
    particular [df] is the frame with the price index that [apply_rows]
    returned, not the frame first loaded. *)
Theorem names_after_the_run w :
  (notebook lib sh w).1 = inr tt →
  ∃ o, events (notebook lib sh w).2 = events_of o ∧
       (∀ n v, (n, v) ∈ names_of o →
          globals (notebook lib sh w).2 !! n = Some v) ∧
       globals (notebook lib sh w).2 !! "df" = Some (PObj (o_df_indexed o)).
Proof.
  intros Hok. destruct (notebook_named w Hok) as (o & Hev & Hg).
  exists o. split; [done|]. rewrite Hg.
  assert (Hall : ∀ n v, (n, v) ∈ names_of o →
            (list_to_map (names_of o) : gmap string pyval) !! n = Some v).
  { intros n v Hin. apply elem_of_list_to_map_1; [|done].
    apply (bool_decide_unpack _). vm_compute. reflexivity. }
  split; [done|]. apply Hall.
  cbv [names_of]. do 7 apply list_elem_of_further. apply list_elem_of_here.
Qed.




(** X11. The type given for the new column is whatever [int] names in
    the kernel: where [df] holds a library object, the first thing cell 5
    does is the [apply_rows] call, with [expensive], [price] bound to
    [x], and for [price_index] the value bound to [int], the builtin if
    the kernel binds none. *)
Theorem apply_rows_is_given_the_int_of_the_kernel
    (st : @state obj world err) (d : obj) :
  globals st !! "df" = Some (PObj d) →
  ∃ r, events (cell_5 lib st).2 !! length (events st) =
         Some (Called
                 (CallMethod d "apply_rows" [PFun "expensive" Kernel.expensive]
                    [("incols", PDict [(PStr "price", PStr "x")]);
                     ("outcols",
                      PDict [(PStr "price_index",
                              default (PBuiltin "int") (globals st !! "int"))])])
                 r) ∧
       take (length (events st)) (events (cell_5 lib st).2) = events st.
Proof.
  intros Hdf. destruct st as [g w evs outs]. cbn [globals events] in *.
  cbv beta iota zeta delta
    [cell_5 name_obj name builtin assign call display mbind mret Py_bind Py_ret
     globals libstate events outputs String.eqb Ascii.eqb Bool.eqb].
  rewrite (lookup_insert_ne g "expensive" "df") by discriminate. rewrite Hdf.
  rewrite lookup_insert_eq.
  rewrite (lookup_insert_ne g "expensive" "int") by discriminate.
  assert (Hhere : ∀ (ev : @event obj err) rest,
            (evs ++ ev :: rest) !! length evs = Some ev ∧
            take (length evs) (evs ++ ev :: rest) = evs).
  { intros ev rest. split.
    - by rewrite lookup_app_r, Nat.sub_diag by lia.
    - by rewrite take_app_length. }
  destruct (g !! "int") as [v|] eqn:Hint; cbn [default from_option id].
  all: repeat (cbv beta iota zeta delta
                 [throw mret Py_ret globals libstate events outputs];
               match goal with
               | |- context [lib ?c ?w'] =>
                   destruct (lib c w') as [[?|?] ?] eqn:?
               | |- context [(<[?k := ?x]> ?m) !! ?k] =>
                   rewrite (lookup_insert_eq m k x)
               end).
  all: cbv beta iota zeta delta
         [throw mret Py_ret globals libstate events outputs snd].
  all: eexists; rewrite <- ?app_assoc; cbn [app]; apply Hhere.
Qed.

End More.

Import Tables RefLib.

Lemma names_after_the_run_witness :
  ∃ o, events (notebook rlib rsh sample).2 = events_of o ∧
       (∀ n v, (n, v) ∈ names_of o →
          globals (notebook rlib rsh sample).2 !! n = Some v) ∧
       globals (notebook rlib rsh sample).2 !! "df" = Some (PObj (o_df_indexed o)).
Proof.
  apply (names_after_the_run rlib rsh sample). vm_compute. reflexivity.
Defined.



Lemma apply_rows_is_given_the_int_of_the_kernel_witness :
  ∃ r, events (cell_5 rlib shadowed).2 !! length (events shadowed) =
         Some (Called
                 (CallMethod (RFrame [[("price", CInt 60)]]) "apply_rows"
                    [PFun "expensive" Kernel.expensive]
                    [("incols", PDict [(PStr "price", PStr "x")]);
                     ("outcols",
                      PDict [(PStr "price_index",
                              default (PBuiltin "int")
                                      (globals shadowed !! "int"))])])
                 r) ∧
       take (length (events shadowed)) (events (cell_5 rlib shadowed).2)
         = events shadowed.
Proof.
  apply (apply_rows_is_given_the_int_of_the_kernel rlib shadowed
           (RFrame [[("price", CInt 60)]])).
  vm_compute. reflexivity.
Defined.

End NotebookExtras.
